(** * Shallow embedding of [fsm/correlator.go] (swfsm's EventCorrelator)

    Conventions of the embedding:
    - a Go map [map[string]V] that may be [nil] is an [option (gmap string V)]:
      [None] is the nil map, [Some m] an allocated one;
    - a Go pointer [*T] to a struct (an info or an attributes record) is an
      [option T]: [None] is [nil];
    - the scalar pointers of the aws-sdk-go types ([*string] for
      [EventType], the activity id, signal name and workflow id, [*int64]
      for [EventID] and the referenced event ids) are recorded as their
      values: the model covers events in which they are non-nil, and the
      panics of dereferencing a nil one are outside it;
    - a computation that may panic (a nil pointer dereference) returns in
      [option]: [None] is the panic;
    - Go [int] is a 64-bit two's complement integer, written as [Z] with its
      wrap-around made explicit in [int_incr]. *)

From Stdlib Require Import ZArith.
From stdpp Require Import base gmap strings pretty options.

Local Open Scope Z_scope.

(** ** The aws-sdk-go [swf] types the correlator reads *)

(** [swf.ActivityType] *)
Record swf_ActivityType := mkActivityType {
  at_Name : string;
  at_Version : string
}.

(** [swf.ActivityTaskScheduledEventAttributes] (the fields the correlator reads) *)
Record ActivityTaskScheduledEventAttributes := mkATSAttrs {
  ats_ActivityID : string;
  ats_ActivityType : option swf_ActivityType
}.

(** The attributes of the four terminal activity events: the
    [ScheduledEventID] they reference. *)
Record ActivityTaskTerminalEventAttributes := mkATTAttrs {
  ScheduledEventID : Z
}.

(** [swf.SignalExternalWorkflowExecutionInitiatedEventAttributes] *)
Record SignalExternalWorkflowExecutionInitiatedEventAttributes := mkSEWEIAttrs {
  sewei_SignalName : string;
  sewei_WorkflowID : string
}.

(** The attributes of the two terminal signal events: the
    [InitiatedEventID] they reference. *)
Record SignalTerminalEventAttributes := mkSTAttrs {
  InitiatedEventID : Z
}.

(** [swf.HistoryEvent]: the event type and id, and one (possibly nil)
    attribute pointer per event kind the correlator reads. *)
Record HistoryEvent := mkHistoryEvent {
  EventType : string;
  EventID : Z;
  ActivityTaskScheduledEventAttributes_ : option ActivityTaskScheduledEventAttributes;
  ActivityTaskCompletedEventAttributes : option ActivityTaskTerminalEventAttributes;
  ActivityTaskFailedEventAttributes : option ActivityTaskTerminalEventAttributes;
  ActivityTaskTimedOutEventAttributes : option ActivityTaskTerminalEventAttributes;
  ActivityTaskCanceledEventAttributes : option ActivityTaskTerminalEventAttributes;
  SignalExternalWorkflowExecutionInitiatedEventAttributes_ :
    option SignalExternalWorkflowExecutionInitiatedEventAttributes;
  ExternalWorkflowExecutionSignaledEventAttributes : option SignalTerminalEventAttributes;
  SignalExternalWorkflowExecutionFailedEventAttributes : option SignalTerminalEventAttributes
}.

(** The [swf.EventType*] constants used by the correlator. *)
Definition EventTypeActivityTaskScheduled : string := "ActivityTaskScheduled".
Definition EventTypeActivityTaskCompleted : string := "ActivityTaskCompleted".
Definition EventTypeActivityTaskFailed : string := "ActivityTaskFailed".
Definition EventTypeActivityTaskTimedOut : string := "ActivityTaskTimedOut".
Definition EventTypeActivityTaskCanceled : string := "ActivityTaskCanceled".
Definition EventTypeSignalExternalWorkflowExecutionInitiated : string :=
  "SignalExternalWorkflowExecutionInitiated".
Definition EventTypeExternalWorkflowExecutionSignaled : string :=
  "ExternalWorkflowExecutionSignaled".
Definition EventTypeSignalExternalWorkflowExecutionFailed : string :=
  "SignalExternalWorkflowExecutionFailed".

(** ** The correlator's own types *)

(** [ActivityInfo]: the activity id and the embedded [*swf.ActivityType]. *)
Record ActivityInfo := mkActivityInfo {
  ActivityID : string;
  ActivityType : option swf_ActivityType
}.

(** [SignalInfo] *)
Record SignalInfo := mkSignalInfo {
  SignalName : string;
  WorkflowID : string
}.

(** [EventCorrelator]: four maps, each possibly nil. *)
Record EventCorrelator := mkEventCorrelator {
  Activities : option (gmap string ActivityInfo);
  ActivityAttempts : option (gmap string Z);
  Signals : option (gmap string SignalInfo);
  SignalAttempts : option (gmap string Z)
}.

(** ** Go primitives *)

(** Reading a map: a nil map reads as empty. *)
Definition getm {V} (m : option (gmap string V)) : gmap string V :=
  default ∅ m.

(** [m[k]] for a map of [int]: a missing key reads as the zero value. *)
Definition int_get (m : option (gmap string Z)) (k : string) : Z :=
  default 0 (getm m !! k).

(** [x + 1] on a 64-bit Go [int]. *)
Definition int_incr (x : Z) : Z :=
  let y := x + 1 in
  if Z.ltb y (2 ^ 63) then y else y - 2 ^ 64.

(** [strconv.FormatInt(x, 10)] *)
Definition FormatInt (x : Z) : string := pretty x.

(** ** The methods of [EventCorrelator] *)

(** [key]: the decimal rendering of an event id. *)
Definition key (eventID : Z) : string := FormatInt eventID.

(** [checkInit]: every nil map is replaced by a fresh empty one. *)
Definition checkInit (a : EventCorrelator) : EventCorrelator :=
  mkEventCorrelator
    (Some (getm (Activities a)))
    (Some (getm (ActivityAttempts a)))
    (Some (getm (Signals a)))
    (Some (getm (SignalAttempts a))).

(** Field updates: [a.Activities = f(a.Activities)] and so on. *)
Definition set_Activities (f : gmap string ActivityInfo → gmap string ActivityInfo)
    (a : EventCorrelator) : EventCorrelator :=
  mkEventCorrelator (Some (f (getm (Activities a)))) (ActivityAttempts a)
    (Signals a) (SignalAttempts a).
Definition set_ActivityAttempts (f : gmap string Z → gmap string Z)
    (a : EventCorrelator) : EventCorrelator :=
  mkEventCorrelator (Activities a) (Some (f (getm (ActivityAttempts a))))
    (Signals a) (SignalAttempts a).
Definition set_Signals (f : gmap string SignalInfo → gmap string SignalInfo)
    (a : EventCorrelator) : EventCorrelator :=
  mkEventCorrelator (Activities a) (ActivityAttempts a)
    (Some (f (getm (Signals a)))) (SignalAttempts a).
Definition set_SignalAttempts (f : gmap string Z → gmap string Z)
    (a : EventCorrelator) : EventCorrelator :=
  mkEventCorrelator (Activities a) (ActivityAttempts a)
    (Signals a) (Some (f (getm (SignalAttempts a)))).

(** [getID]: the key of the origin event a terminal event references;
    [""] for any other event type.  Dereferencing a nil attribute pointer
    panics. *)
Definition getID (h : HistoryEvent) : option string :=
  let t := EventType h in
  if String.eqb t EventTypeActivityTaskCompleted then
    attrs ← ActivityTaskCompletedEventAttributes h; Some (key (ScheduledEventID attrs))
  else if String.eqb t EventTypeActivityTaskFailed then
    attrs ← ActivityTaskFailedEventAttributes h; Some (key (ScheduledEventID attrs))
  else if String.eqb t EventTypeActivityTaskTimedOut then
    attrs ← ActivityTaskTimedOutEventAttributes h; Some (key (ScheduledEventID attrs))
  else if String.eqb t EventTypeActivityTaskCanceled then
    attrs ← ActivityTaskCanceledEventAttributes h; Some (key (ScheduledEventID attrs))
  else if String.eqb t EventTypeExternalWorkflowExecutionSignaled then
    attrs ← ExternalWorkflowExecutionSignaledEventAttributes h; Some (key (InitiatedEventID attrs))
  else if String.eqb t EventTypeSignalExternalWorkflowExecutionFailed then
    attrs ← SignalExternalWorkflowExecutionFailedEventAttributes h;
    Some (key (InitiatedEventID attrs))
  else Some "".

(** [signalIDFromInfo]: [fmt.Sprintf("%s->%s", ...)]; a nil info panics. *)
Definition signalIDFromInfo (info : option SignalInfo) : option string :=
  i ← info; Some (SignalName i +:+ "->" +:+ WorkflowID i).

(** [safeActivityID] *)
Definition safeActivityID (a : EventCorrelator) (h : HistoryEvent) : option string :=
  id ← getID h;
  match getm (Activities a) !! id with
  | Some info => Some (ActivityID info)
  | None => Some ""
  end.

(** [safeSignalID] *)
Definition safeSignalID (a : EventCorrelator) (h : HistoryEvent) : option string :=
  id ← getID h;
  match getm (Signals a) !! id with
  | Some info => signalIDFromInfo (Some info)
  | None => Some ""
  end.

(** [incrementActivityAttempts] *)
Definition incrementActivityAttempts (a : EventCorrelator) (h : HistoryEvent)
    : option EventCorrelator :=
  id ← safeActivityID a h;
  if String.eqb id "" then Some a
  else Some (set_ActivityAttempts
               (λ m, <[id := int_incr (int_get (ActivityAttempts a) id)]> m) a).

(** [incrementSignalAttempts] *)
Definition incrementSignalAttempts (a : EventCorrelator) (h : HistoryEvent)
    : option EventCorrelator :=
  id ← safeSignalID a h;
  if String.eqb id "" then Some a
  else Some (set_SignalAttempts
               (λ m, <[id := int_incr (int_get (SignalAttempts a) id)]> m) a).

(** [RemoveCorrelation]: the resolving half of [Track]. *)
Definition RemoveCorrelation (a0 : EventCorrelator) (h : HistoryEvent)
    : option EventCorrelator :=
  let a := checkInit a0 in
  let t := EventType h in
  if String.eqb t EventTypeActivityTaskCompleted then
    sid ← safeActivityID a h;
    attrs ← ActivityTaskCompletedEventAttributes h;
    Some (set_Activities (delete (key (ScheduledEventID attrs)))
            (set_ActivityAttempts (delete sid) a))
  else if String.eqb t EventTypeActivityTaskFailed then
    a ← incrementActivityAttempts a h;
    attrs ← ActivityTaskFailedEventAttributes h;
    Some (set_Activities (delete (key (ScheduledEventID attrs))) a)
  else if String.eqb t EventTypeActivityTaskTimedOut then
    a ← incrementActivityAttempts a h;
    attrs ← ActivityTaskTimedOutEventAttributes h;
    Some (set_Activities (delete (key (ScheduledEventID attrs))) a)
  else if String.eqb t EventTypeActivityTaskCanceled then
    sid ← safeActivityID a h;
    attrs ← ActivityTaskCanceledEventAttributes h;
    Some (set_Activities (delete (key (ScheduledEventID attrs)))
            (set_ActivityAttempts (delete sid) a))
  else if String.eqb t EventTypeExternalWorkflowExecutionSignaled then
    attrs ← ExternalWorkflowExecutionSignaledEventAttributes h;
    let info := getm (Signals a) !! key (InitiatedEventID attrs) in
    sid ← signalIDFromInfo info;
    Some (set_Signals (delete (key (InitiatedEventID attrs)))
            (set_SignalAttempts (delete sid) a))
  else if String.eqb t EventTypeSignalExternalWorkflowExecutionFailed then
    a ← incrementSignalAttempts a h;
    attrs ← SignalExternalWorkflowExecutionFailedEventAttributes h;
    Some (set_Signals (delete (key (InitiatedEventID attrs))) a)
  else Some a.

(** [Correlate]: the establishing half of [Track].  The [fmt.Printf] of
    the signal branch writes to standard output only and is not part of
    the correlator's state. *)
Definition Correlate (a0 : EventCorrelator) (h : HistoryEvent)
    : option EventCorrelator :=
  let a := checkInit a0 in
  a ← (if String.eqb (EventType h) EventTypeActivityTaskScheduled then
         attrs ← ActivityTaskScheduledEventAttributes_ h;
         Some (set_Activities
                 (<[key (EventID h) :=
                      mkActivityInfo (ats_ActivityID attrs) (ats_ActivityType attrs)]>) a)
       else Some a);
  if String.eqb (EventType h) EventTypeSignalExternalWorkflowExecutionInitiated then
    attrs ← SignalExternalWorkflowExecutionInitiatedEventAttributes_ h;
    Some (set_Signals
            (<[key (EventID h) :=
                 mkSignalInfo (sewei_SignalName attrs) (sewei_WorkflowID attrs)]>) a)
  else Some a.

(** [Track] *)
Definition Track (a : EventCorrelator) (h : HistoryEvent) : option EventCorrelator :=
  a ← RemoveCorrelation a h; Correlate a h.

(** The method [ActivityInfo] (renamed: the record type holds the name).
    Besides the result it returns the receiver, which [checkInit] updates. *)
Definition EventCorrelator_ActivityInfo (a0 : EventCorrelator) (h : HistoryEvent)
    : option (EventCorrelator * option ActivityInfo) :=
  let a := checkInit a0 in
  id ← getID h; Some (a, getm (Activities a) !! id).

(** The method [SignalInfo]. *)
Definition EventCorrelator_SignalInfo (a0 : EventCorrelator) (h : HistoryEvent)
    : option (EventCorrelator * option SignalInfo) :=
  let a := checkInit a0 in
  id ← getID h; Some (a, getm (Signals a) !! id).

(** [AttemptsForActivity]: [info.ActivityID] dereferences [info]. *)
Definition AttemptsForActivity (a0 : EventCorrelator) (info : option ActivityInfo)
    : option (EventCorrelator * Z) :=
  let a := checkInit a0 in
  i ← info; Some (a, int_get (ActivityAttempts a) (ActivityID i)).

(** [AttemptsForSignal] *)
Definition AttemptsForSignal (a0 : EventCorrelator) (info : option SignalInfo)
    : option (EventCorrelator * Z) :=
  let a := checkInit a0 in
  sid ← signalIDFromInfo info; Some (a, int_get (SignalAttempts a) sid).

(** A replay: [Track] called once per event, in history order. *)
Fixpoint TrackAll (a : EventCorrelator) (hs : list HistoryEvent)
    : option EventCorrelator :=
  match hs with
  | [] => Some a
  | h :: hs' => a' ← Track a h; TrackAll a' hs'
  end.

(** The zero value [EventCorrelator{}] and a constructed correlator with
    four allocated empty maps. *)
Definition zeroCorrelator : EventCorrelator := mkEventCorrelator None None None None.
Definition freshCorrelator : EventCorrelator :=
  mkEventCorrelator (Some ∅) (Some ∅) (Some ∅) (Some ∅).

(** ** Well-formed history events of each kind *)

Definition blank_event (t : string) (id : Z) : HistoryEvent :=
  mkHistoryEvent t id None None None None None None None None.

Definition ev_scheduled (id : Z) (aid : string) (ty : option swf_ActivityType)
    : HistoryEvent :=
  mkHistoryEvent EventTypeActivityTaskScheduled id
    (Some (mkATSAttrs aid ty)) None None None None None None None.
Definition ev_completed (id sched : Z) : HistoryEvent :=
  mkHistoryEvent EventTypeActivityTaskCompleted id
    None (Some (mkATTAttrs sched)) None None None None None None.
Definition ev_failed (id sched : Z) : HistoryEvent :=
  mkHistoryEvent EventTypeActivityTaskFailed id
    None None (Some (mkATTAttrs sched)) None None None None None.
Definition ev_timed_out (id sched : Z) : HistoryEvent :=
  mkHistoryEvent EventTypeActivityTaskTimedOut id
    None None None (Some (mkATTAttrs sched)) None None None None.
Definition ev_canceled (id sched : Z) : HistoryEvent :=
  mkHistoryEvent EventTypeActivityTaskCanceled id
    None None None None (Some (mkATTAttrs sched)) None None None.
Definition ev_initiated (id : Z) (name wf : string) : HistoryEvent :=
  mkHistoryEvent EventTypeSignalExternalWorkflowExecutionInitiated id
    None None None None None (Some (mkSEWEIAttrs name wf)) None None.
Definition ev_signaled (id init : Z) : HistoryEvent :=
  mkHistoryEvent EventTypeExternalWorkflowExecutionSignaled id
    None None None None None None (Some (mkSTAttrs init)) None.
Definition ev_signal_failed (id init : Z) : HistoryEvent :=
  mkHistoryEvent EventTypeSignalExternalWorkflowExecutionFailed id
    None None None None None None None (Some (mkSTAttrs init)).

(** The event types [Track] acts on. *)
Definition recognized_types : list string :=
  [EventTypeActivityTaskScheduled; EventTypeActivityTaskCompleted;
   EventTypeActivityTaskFailed; EventTypeActivityTaskTimedOut;
   EventTypeActivityTaskCanceled; EventTypeSignalExternalWorkflowExecutionInitiated;
   EventTypeExternalWorkflowExecutionSignaled; EventTypeSignalExternalWorkflowExecutionFailed].

Definition is_recognized (t : string) : bool :=
  existsb (String.eqb t) recognized_types.

(** The activity type [{foo, 1}] of the spec's examples. *)
Definition foo1 : swf_ActivityType := mkActivityType "foo" "1".

(** The claim's scenario: a fresh correlator receives
    [ExternalWorkflowExecutionSignaled] for initiated event 1, which was
    never tracked. *)
Definition C1_event : HistoryEvent := ev_signaled 5 1.

(** The claim's run, from a given correlator: the two counts read after
    each schedule → failure cycle of ["a1"]. *)
Definition C2_run (a : EventCorrelator) : option (Z * Z) :=
  a1 ← TrackAll a [ev_scheduled 10 "a1" None; ev_failed 11 10];
  r1 ← AttemptsForActivity a1 (Some (mkActivityInfo "a1" None));
  a2 ← TrackAll a1 [ev_scheduled 20 "a1" None; ev_failed 21 20];
  r2 ← AttemptsForActivity a2 (Some (mkActivityInfo "a1" None));
  Some (r1.2, r2.2).

(** An event of a type the correlator does not act on. *)
Definition C7_event : HistoryEvent := blank_event "WorkflowExecutionStarted" 1.

(** A short history for the determinism example. *)
Definition C9_history : list HistoryEvent :=
  [ev_scheduled 10 "a1" (Some foo1); ev_failed 11 10; ev_initiated 12 "N" "W"].

(** Whether the attribute pointer an event's type calls for is non-nil:
    the decoding layer's guarantee for the events it hands to [Track]. *)
Definition present {A} (o : option A) : bool :=
  match o with Some _ => true | None => false end.

Definition attrs_present (h : HistoryEvent) : bool :=
  let t := EventType h in
  if String.eqb t EventTypeActivityTaskScheduled then
    present (ActivityTaskScheduledEventAttributes_ h)
  else if String.eqb t EventTypeActivityTaskCompleted then
    present (ActivityTaskCompletedEventAttributes h)
  else if String.eqb t EventTypeActivityTaskFailed then
    present (ActivityTaskFailedEventAttributes h)
  else if String.eqb t EventTypeActivityTaskTimedOut then
    present (ActivityTaskTimedOutEventAttributes h)
  else if String.eqb t EventTypeActivityTaskCanceled then
    present (ActivityTaskCanceledEventAttributes h)
  else if String.eqb t EventTypeSignalExternalWorkflowExecutionInitiated then
    present (SignalExternalWorkflowExecutionInitiatedEventAttributes_ h)
  else if String.eqb t EventTypeExternalWorkflowExecutionSignaled then
    present (ExternalWorkflowExecutionSignaledEventAttributes h)
  else if String.eqb t EventTypeSignalExternalWorkflowExecutionFailed then
    present (SignalExternalWorkflowExecutionFailedEventAttributes h)
  else true.

(** The entries of the four indices, a nil map read as empty. *)
Definition entries (a : EventCorrelator)
    : gmap string ActivityInfo * gmap string Z * gmap string SignalInfo * gmap string Z :=
  (getm (Activities a), getm (ActivityAttempts a), getm (Signals a), getm (SignalAttempts a)).

(** All four maps allocated. *)
Definition initialized (a : EventCorrelator) : Prop :=
  is_Some (Activities a) ∧ is_Some (ActivityAttempts a) ∧
  is_Some (Signals a) ∧ is_Some (SignalAttempts a).


(** Counting the events of a history that satisfy a test. *)
Fixpoint count_events (p : HistoryEvent → bool) (hs : list HistoryEvent) : nat :=
  match hs with
  | [] => 0
  | h :: hs' => (if p h then 1 else 0) + count_events p hs'
  end.

(** The events on which [RemoveCorrelation] increments an attempt counter. *)
Definition is_activity_failure (h : HistoryEvent) : bool :=
  String.eqb (EventType h) EventTypeActivityTaskFailed
  || String.eqb (EventType h) EventTypeActivityTaskTimedOut.
Definition is_signal_failure (h : HistoryEvent) : bool :=
  String.eqb (EventType h) EventTypeSignalExternalWorkflowExecutionFailed.

(** Every counter of an attempts map is stored under a non-empty id and
    lies between 1 and [n]. *)
Definition attempts_bounded (m : option (gmap string Z)) (n : Z) : Prop :=
  ∀ k v, getm m !! k = Some v → k ≠ "" ∧ 1 ≤ v ≤ n.

(** A replay: the activity ["build"] is scheduled three times and fails
    or times out twice; the signal ["go"] to ["wf"] is initiated twice and
    its first delivery fails. *)
Definition replay_history : list HistoryEvent :=
  [ev_scheduled 1 "build" (Some foo1); ev_failed 2 1;
   ev_scheduled 3 "build" (Some foo1); ev_timed_out 4 3;
   ev_scheduled 5 "build" (Some foo1);
   ev_initiated 6 "go" "wf"; ev_signal_failed 7 6; ev_initiated 8 "go" "wf"].

(** The state [replay_history] leads to from a fresh correlator (the
    zero value if the replay faulted). *)
Definition replayed : EventCorrelator :=
  default zeroCorrelator (TrackAll freshCorrelator replay_history).

(** ** Basic facts *)

Lemma checkInit_idem (a : EventCorrelator) : checkInit (checkInit a) = checkInit a.
Proof. reflexivity. Qed.

Lemma entries_checkInit (a : EventCorrelator) : entries (checkInit a) = entries a.
Proof. reflexivity. Qed.

Lemma checkInit_initialized (a : EventCorrelator) : initialized a → checkInit a = a.
Proof.
  destruct a as [[] [] [] []]; unfold initialized; simpl;
    intros (H1 & H2 & H3 & H4);
    repeat match goal with H : is_Some None |- _ => destruct H as [? ?]; discriminate end;
    reflexivity.
Qed.

Lemma checkInit_entries (a b : EventCorrelator) :
  entries a = entries b → checkInit a = checkInit b.
Proof.
  unfold entries, checkInit. intros H. injection H as E1 E2 E3 E4.
  by rewrite E1, E2, E3, E4.
Qed.

Lemma RemoveCorrelation_checkInit (a : EventCorrelator) (h : HistoryEvent) :
  RemoveCorrelation (checkInit a) h = RemoveCorrelation a h.
Proof. reflexivity. Qed.

Lemma Correlate_checkInit (a : EventCorrelator) (h : HistoryEvent) :
  Correlate (checkInit a) h = Correlate a h.
Proof. reflexivity. Qed.

Lemma Track_checkInit (a : EventCorrelator) (h : HistoryEvent) :
  Track (checkInit a) h = Track a h.
Proof. reflexivity. Qed.

Lemma set_Activities_delete_notin (a : EventCorrelator) (k : string) :
  getm (Activities a) !! k = None →
  set_Activities (delete k) (checkInit a) = checkInit a.
Proof. intros H. unfold set_Activities, checkInit; simpl. by rewrite delete_id. Qed.

Lemma set_Signals_delete_notin (a : EventCorrelator) (k : string) :
  getm (Signals a) !! k = None →
  set_Signals (delete k) (checkInit a) = checkInit a.
Proof. intros H. unfold set_Signals, checkInit; simpl. by rewrite delete_id. Qed.

Lemma set_ActivityAttempts_delete_notin (a : EventCorrelator) (k : string) :
  getm (ActivityAttempts a) !! k = None →
  set_ActivityAttempts (delete k) (checkInit a) = checkInit a.
Proof. intros H. unfold set_ActivityAttempts, checkInit; simpl. by rewrite delete_id. Qed.

(** [Correlate] does nothing but [checkInit] on an event that is not
    establishing. *)
Lemma Correlate_not_establishing (a : EventCorrelator) (h : HistoryEvent) :
  String.eqb (EventType h) EventTypeActivityTaskScheduled = false →
  String.eqb (EventType h) EventTypeSignalExternalWorkflowExecutionInitiated = false →
  Correlate a h = Some (checkInit a).
Proof. intros H1 H2. unfold Correlate. rewrite H1, H2. reflexivity. Qed.

(** ** C1: resolving an event whose origin is not pending *)


(** C1 (counterexample): for an external-execution-signaled event whose
    initiated event has no pending entry, [Track] faults: [signalIDFromInfo]
    dereferences the nil info read from [Signals].  And for a failed event
    with no pending entry, the zero-value correlator is not left as it was:
    its nil maps are allocated. *)
Lemma C1_counterexample :
  getm (Signals freshCorrelator) !! key 1 = None ∧
  Track freshCorrelator C1_event = None ∧
  Track zeroCorrelator (ev_failed 11 10) = Some freshCorrelator ∧
  freshCorrelator ≠ zeroCorrelator.
Proof. split; [vm_compute; reflexivity|]. split; [vm_compute; reflexivity|].
  split; [reflexivity|discriminate]. Qed.

Lemma safeActivityID_untracked (a : EventCorrelator) (h : HistoryEvent) (id : string) :
  getID h = Some id → getm (Activities a) !! id = None → safeActivityID a h = Some "".
Proof. intros Hid HA. unfold safeActivityID. rewrite Hid. simpl. by rewrite HA. Qed.

Lemma safeSignalID_untracked (a : EventCorrelator) (h : HistoryEvent) (id : string) :
  getID h = Some id → getm (Signals a) !! id = None → safeSignalID a h = Some "".
Proof. intros Hid HS. unfold safeSignalID. rewrite Hid. simpl. by rewrite HS. Qed.

Lemma incrementActivityAttempts_untracked (a : EventCorrelator) (h : HistoryEvent)
    (id : string) :
  getID h = Some id → getm (Activities a) !! id = None →
  incrementActivityAttempts a h = Some a.
Proof.
  intros Hid HA. unfold incrementActivityAttempts.
  by rewrite (safeActivityID_untracked a h id Hid HA).
Qed.

Lemma incrementSignalAttempts_untracked (a : EventCorrelator) (h : HistoryEvent)
    (id : string) :
  getID h = Some id → getm (Signals a) !! id = None →
  incrementSignalAttempts a h = Some a.
Proof.
  intros Hid HS. unfold incrementSignalAttempts.
  by rewrite (safeSignalID_untracked a h id Hid HS).
Qed.

(** Unfold [getID] in a hypothesis for an event whose type is known. *)
Ltac getID_attrs Hid Ht :=
  unfold getID in Hid; rewrite Ht in Hid; simpl in Hid;
  match type of Hid with
  | ?o ≫= _ = Some _ =>
      let r := fresh "r" in let E := fresh "E" in
      destruct o as [r|] eqn:E; simpl in Hid; [injection Hid as <-|discriminate]
  end.

(** C1 (amended): for a completed, failed, timed-out or canceled activity
    event, or a signal-delivery-failed event, whose referenced origin id has
    no pending entry, [Track] does not fault and returns the correlator with
    its nil maps allocated ([checkInit]): every entry of every index is
    unchanged, provided no attempt counter is recorded under the empty
    activity id (the sentinel [safeActivityID] returns). *)
Theorem C1_resolve_untracked_noop (a : EventCorrelator) (h : HistoryEvent) (id : string) :
  EventType h ∈ [EventTypeActivityTaskCompleted; EventTypeActivityTaskFailed;
                 EventTypeActivityTaskTimedOut; EventTypeActivityTaskCanceled;
                 EventTypeSignalExternalWorkflowExecutionFailed] →
  getID h = Some id →
  getm (Activities a) !! id = None →
  getm (Signals a) !! id = None →
  getm (ActivityAttempts a) !! "" = None →
  Track a h = Some (checkInit a) ∧ entries (checkInit a) = entries a.
Proof.
  intros Ht Hid HA HS HE. split; [|reflexivity].
  assert (Hcor : ∀ b, Correlate b h = Some (checkInit b)).
  { intros b. apply Correlate_not_establishing;
      repeat (apply elem_of_cons in Ht as [Ht|Ht]; [rewrite Ht; reflexivity|]);
      apply elem_of_nil in Ht; contradiction. }
  unfold Track.
  enough (Hrem : RemoveCorrelation a h = Some (checkInit a))
    by (rewrite Hrem; exact (Hcor (checkInit a))).
  unfold RemoveCorrelation.
  apply list_elem_of_In in Ht; simpl in Ht.
  destruct Ht as [Ht|[Ht|[Ht|[Ht|[Ht|[]]]]]]; symmetry in Ht;
    rewrite Ht; simpl; pose proof Hid as Hid'; getID_attrs Hid' Ht.
  - (* completed *)
    rewrite (safeActivityID_untracked (checkInit a) h _ Hid HA). simpl.
    rewrite set_ActivityAttempts_delete_notin by done.
    by rewrite set_Activities_delete_notin.
  - (* failed *)
    rewrite (incrementActivityAttempts_untracked (checkInit a) h _ Hid HA). simpl.
    by rewrite set_Activities_delete_notin.
  - (* timed out *)
    rewrite (incrementActivityAttempts_untracked (checkInit a) h _ Hid HA). simpl.
    by rewrite set_Activities_delete_notin.
  - (* canceled *)
    rewrite (safeActivityID_untracked (checkInit a) h _ Hid HA). simpl.
    rewrite set_ActivityAttempts_delete_notin by done.
    by rewrite set_Activities_delete_notin.
  - (* signal delivery failed *)
    rewrite (incrementSignalAttempts_untracked (checkInit a) h _ Hid HS). simpl.
    by rewrite set_Signals_delete_notin.
Qed.

(** ** [Track] on each kind of event *)

Lemma Track_scheduled (a : EventCorrelator) (e : Z) (aid : string)
    (ty : option swf_ActivityType) :
  Track a (ev_scheduled e aid ty) =
  Some (set_Activities (<[key e := mkActivityInfo aid ty]>) (checkInit a)).
Proof. reflexivity. Qed.

Lemma Track_initiated (a : EventCorrelator) (e : Z) (n w : string) :
  Track a (ev_initiated e n w) =
  Some (set_Signals (<[key e := mkSignalInfo n w]>) (checkInit a)).
Proof. reflexivity. Qed.

Lemma Track_activity_failure (a : EventCorrelator) (term : Z → Z → HistoryEvent)
    (e' e : Z) (info : ActivityInfo) :
  term ∈ [ev_failed; ev_timed_out] →
  getm (Activities a) !! key e = Some info →
  ActivityID info ≠ "" →
  Track a (term e' e) =
  Some (set_Activities (delete (key e))
          (set_ActivityAttempts
             (<[ActivityID info := int_incr (int_get (ActivityAttempts a) (ActivityID info))]>)
             (checkInit a))).
Proof.
  intros Ht HA Hne.
  apply list_elem_of_In in Ht; simpl in Ht.
  destruct Ht as [<-|[<-|[]]];
    unfold Track, RemoveCorrelation, incrementActivityAttempts, safeActivityID; simpl;
    rewrite HA; simpl;
    (destruct (String.eqb_spec (ActivityID info) "") as [|_]; [contradiction|]);
    reflexivity.
Qed.

Lemma Track_activity_resolved (a : EventCorrelator) (term : Z → Z → HistoryEvent)
    (e' e : Z) (info : ActivityInfo) :
  term ∈ [ev_completed; ev_canceled] →
  getm (Activities a) !! key e = Some info →
  Track a (term e' e) =
  Some (set_Activities (delete (key e))
          (set_ActivityAttempts (delete (ActivityID info)) (checkInit a))).
Proof.
  intros Ht HA.
  apply list_elem_of_In in Ht; simpl in Ht.
  destruct Ht as [<-|[<-|[]]];
    unfold Track, RemoveCorrelation, safeActivityID; simpl; rewrite HA; reflexivity.
Qed.

Lemma signalIDFromInfo_nonempty (i : SignalInfo) :
  String.eqb (SignalName i +:+ "->" +:+ WorkflowID i) "" = false.
Proof. destruct i as [[|c s] w]; reflexivity. Qed.

Lemma Track_signaled (a : EventCorrelator) (e' e : Z) (info : SignalInfo) :
  getm (Signals a) !! key e = Some info →
  Track a (ev_signaled e' e) =
  Some (set_Signals (delete (key e))
          (set_SignalAttempts (delete (SignalName info +:+ "->" +:+ WorkflowID info))
             (checkInit a))).
Proof. intros HS. unfold Track, RemoveCorrelation; simpl. by rewrite HS. Qed.

Lemma Track_signal_failed (a : EventCorrelator) (e' e : Z) (info : SignalInfo) :
  getm (Signals a) !! key e = Some info →
  Track a (ev_signal_failed e' e) =
  Some (set_Signals (delete (key e))
          (set_SignalAttempts
             (<[SignalName info +:+ "->" +:+ WorkflowID info :=
                int_incr (int_get (SignalAttempts a)
                            (SignalName info +:+ "->" +:+ WorkflowID info))]>)
             (checkInit a))).
Proof.
  intros HS. unfold Track, RemoveCorrelation, incrementSignalAttempts, safeSignalID; simpl.
  rewrite HS; simpl. by rewrite signalIDFromInfo_nonempty.
Qed.

Lemma int_incr_small (n : Z) : n + 1 < 2 ^ 63 → int_incr n = n + 1.
Proof. intros H. unfold int_incr. destruct (Z.ltb_spec (n + 1) (2 ^ 63)); lia. Qed.

Lemma int_get_insert (m : gmap string Z) (k : string) (v : Z) :
  int_get (Some (<[k := v]> m)) k = v.
Proof. unfold int_get, getm; simpl. by rewrite lookup_insert_eq. Qed.

Lemma int_get_delete (m : gmap string Z) (k : string) :
  int_get (Some (delete k m)) k = 0.
Proof. unfold int_get, getm; simpl. by rewrite lookup_delete_eq. Qed.

Lemma AttemptsForActivity_present (a : EventCorrelator) (i : ActivityInfo) :
  snd <$> AttemptsForActivity a (Some i) = Some (int_get (ActivityAttempts a) (ActivityID i)).
Proof. reflexivity. Qed.

Lemma AttemptsForSignal_present (a : EventCorrelator) (i : SignalInfo) :
  snd <$> AttemptsForSignal a (Some i) =
  Some (int_get (SignalAttempts a) (SignalName i +:+ "->" +:+ WorkflowID i)).
Proof. reflexivity. Qed.

(** One schedule → failure (or time-out) cycle of an activity. *)
Lemma activity_failure_cycle (a : EventCorrelator) (term : Z → Z → HistoryEvent)
    (aid : string) (ty : option swf_ActivityType) (e e' : Z) :
  term ∈ [ev_failed; ev_timed_out] → aid ≠ "" →
  ∃ a', TrackAll a [ev_scheduled e aid ty; term e' e] = Some a' ∧
        initialized a' ∧
        int_get (ActivityAttempts a') aid = int_incr (int_get (ActivityAttempts a) aid).
Proof.
  intros Ht Hne. cbn [TrackAll]. rewrite Track_scheduled. cbn [mbind option_bind].
  rewrite (Track_activity_failure _ term e' e (mkActivityInfo aid ty));
    cbn [mbind option_bind]; try done.
  - eexists; split; [reflexivity|]. split.
    + unfold initialized; simpl; repeat split; eexists; reflexivity.
    + apply int_get_insert.
  - apply lookup_insert_eq.
Qed.

(** ** C2: activity attempt counters are keyed by the activity id *)


(** C2 (counterexample): the claim is not true of every correlator: on a
    correlator where ["a1"] already failed once (itself reached from a fresh
    correlator), the two cycles give 2 and 3, not 1 and 2. *)
Lemma C2_counterexample :
  (TrackAll freshCorrelator [ev_scheduled 5 "a1" None; ev_failed 6 5] ≫= C2_run)
  = Some (2, 3).
Proof. vm_compute. reflexivity. Qed.

(** C2 (amended): each schedule → failure (or time-out) cycle of the same
    non-empty activity id, under any scheduling event ids, adds one to the counter
    read by [AttemptsForActivity]: from a correlator whose counter for the
    id is [n] the two cycles give [n + 1] and [n + 2] (1 and 2 from a fresh
    correlator), the counter being a 64-bit [int] that does not reach its
    maximum here. *)
Theorem C2_attempts_by_activity_id (a : EventCorrelator) (term : Z → Z → HistoryEvent)
    (aid : string) (ty : option swf_ActivityType) (e1 e1' e2 e2' n : Z) :
  term ∈ [ev_failed; ev_timed_out] → aid ≠ "" →
  int_get (ActivityAttempts a) aid = n → n + 2 < 2 ^ 63 →
  ∃ a1 a2,
    TrackAll a [ev_scheduled e1 aid ty; term e1' e1] = Some a1 ∧
    snd <$> AttemptsForActivity a1 (Some (mkActivityInfo aid ty)) = Some (n + 1) ∧
    TrackAll a1 [ev_scheduled e2 aid ty; term e2' e2] = Some a2 ∧
    snd <$> AttemptsForActivity a2 (Some (mkActivityInfo aid ty)) = Some (n + 2).
Proof.
  intros Ht Hne Hn Hb.
  destruct (activity_failure_cycle a term aid ty e1 e1' Ht Hne) as (a1 & H1 & _ & C1).
  destruct (activity_failure_cycle a1 term aid ty e2 e2' Ht Hne) as (a2 & H2 & _ & C2).
  exists a1, a2. split; [done|]. split; [|split; [done|]];
    rewrite AttemptsForActivity_present; cbn [ActivityID].
  - f_equal. rewrite C1, Hn. apply int_incr_small. lia.
  - f_equal. rewrite C2, C1, Hn, (int_incr_small n) by lia.
    rewrite int_incr_small by lia. lia.
Qed.

Lemma ActivityInfo_terminal (a : EventCorrelator) (term : Z → Z → HistoryEvent) (e' e : Z) :
  term ∈ [ev_completed; ev_failed; ev_timed_out; ev_canceled] →
  snd <$> EventCorrelator_ActivityInfo a (term e' e) = Some (getm (Activities a) !! key e).
Proof.
  intros Ht. apply list_elem_of_In in Ht; simpl in Ht.
  destruct Ht as [<-|[<-|[<-|[<-|[]]]]]; reflexivity.
Qed.

Lemma SignalInfo_signaled (a : EventCorrelator) (e' e : Z) :
  snd <$> EventCorrelator_SignalInfo a (ev_signaled e' e) = Some (getm (Signals a) !! key e).
Proof. reflexivity. Qed.

(** A terminal activity event never faults and always removes the entry it
    references. *)
Lemma Track_activity_terminal_removes (a : EventCorrelator) (term : Z → Z → HistoryEvent)
    (e' e : Z) :
  term ∈ [ev_completed; ev_failed; ev_timed_out; ev_canceled] →
  ∃ a', Track a (term e' e) = Some a' ∧ getm (Activities a') !! key e = None.
Proof.
  intros Ht. apply list_elem_of_In in Ht; simpl in Ht.
  destruct Ht as [<-|[<-|[<-|[<-|[]]]]];
    unfold Track, RemoveCorrelation, incrementActivityAttempts, safeActivityID; simpl;
    destruct (getm (Activities a) !! key e) as [info|]; simpl;
    try destruct (String.eqb (ActivityID info) ""); simpl;
    eexists; (split; [reflexivity|apply lookup_delete_eq]).
Qed.

(** ** C3: success or cancellation deletes the attempt counter *)

(** C3: for every correlator, tracking the scheduling of an activity and
    then its completion (or cancellation) leaves no attempt counter for its
    activity id: [AttemptsForActivity] returns 0, whatever failures were
    counted before. *)
Theorem C3_resolve_clears_attempts (a : EventCorrelator) (term : Z → Z → HistoryEvent)
    (aid : string) (ty : option swf_ActivityType) (k e : Z) :
  term ∈ [ev_completed; ev_canceled] →
  ∃ a', TrackAll a [ev_scheduled k aid ty; term e k] = Some a' ∧
        snd <$> AttemptsForActivity a' (Some (mkActivityInfo aid ty)) = Some 0.
Proof.
  intros Ht. cbn [TrackAll]. rewrite Track_scheduled. cbn [mbind option_bind].
  rewrite (Track_activity_resolved _ term e k (mkActivityInfo aid ty) Ht)
    by apply lookup_insert_eq.
  cbn [mbind option_bind]. eexists; split; [reflexivity|].
  rewrite AttemptsForActivity_present. f_equal. apply int_get_delete.
Qed.

(** ** C4: signal attempt counters are keyed by signal name and workflow id *)

(** C4: for every correlator, after tracking the initiation of signal [n] to
    workflow [w], [SignalInfo] of the signaled event that references it
    returns [{n, w}]; once that event is tracked, [AttemptsForSignal] of
    [{n, w}] is 0; after a second initiation of the same signal and its
    delivery failure, it is 1. *)
Theorem C4_signal_attempts (a : EventCorrelator) (n w : string) (i1 s1 i2 s2 : Z) :
  ∃ a1 a2 a3,
    Track a (ev_initiated i1 n w) = Some a1 ∧
    snd <$> EventCorrelator_SignalInfo a1 (ev_signaled s1 i1) = Some (Some (mkSignalInfo n w)) ∧
    Track a1 (ev_signaled s1 i1) = Some a2 ∧
    snd <$> AttemptsForSignal a2 (Some (mkSignalInfo n w)) = Some 0 ∧
    TrackAll a2 [ev_initiated i2 n w; ev_signal_failed s2 i2] = Some a3 ∧
    snd <$> AttemptsForSignal a3 (Some (mkSignalInfo n w)) = Some 1.
Proof.
  eexists _, _, _. split; [apply Track_initiated|].
  split; [rewrite SignalInfo_signaled; f_equal; apply lookup_insert_eq|].
  split; [apply (Track_signaled _ s1 i1 (mkSignalInfo n w)); apply lookup_insert_eq|].
  split; [rewrite AttemptsForSignal_present; f_equal; apply int_get_delete|].
  split.
  - cbn [TrackAll]. rewrite Track_initiated. cbn [mbind option_bind].
    rewrite (Track_signal_failed _ s2 i2 (mkSignalInfo n w)) by apply lookup_insert_eq.
    reflexivity.
  - rewrite AttemptsForSignal_present. f_equal.
    etransitivity; [apply int_get_insert|].
    transitivity (int_incr 0); [|reflexivity]. f_equal. apply int_get_delete.
Qed.

(** ** C5: a terminal event removes the pending entry it resolves *)

(** C5: for every correlator, after tracking the scheduling of activity
    [aid] of type [ty] as event [e], [ActivityInfo] of a completed, failed,
    timed-out or canceled event referencing [e] returns [{aid, ty}]; after
    that terminal event is tracked, the same lookup returns absent. *)
Theorem C5_terminal_removes_pending (a : EventCorrelator) (term : Z → Z → HistoryEvent)
    (aid : string) (ty : option swf_ActivityType) (e e' : Z) :
  term ∈ [ev_completed; ev_failed; ev_timed_out; ev_canceled] →
  ∃ a1 a2,
    Track a (ev_scheduled e aid ty) = Some a1 ∧
    snd <$> EventCorrelator_ActivityInfo a1 (term e' e) = Some (Some (mkActivityInfo aid ty)) ∧
    Track a1 (term e' e) = Some a2 ∧
    snd <$> EventCorrelator_ActivityInfo a2 (term e' e) = Some None.
Proof.
  intros Ht.
  set (a1 := set_Activities (<[key e := mkActivityInfo aid ty]>) (checkInit a)).
  destruct (Track_activity_terminal_removes a1 term e' e Ht) as (a2 & H2 & HA2).
  exists a1, a2. split; [apply Track_scheduled|].
  split; [rewrite (ActivityInfo_terminal _ _ _ _ Ht); f_equal; apply lookup_insert_eq|].
  split; [exact H2|].
  rewrite (ActivityInfo_terminal _ _ _ _ Ht). by rewrite HA2.
Qed.

(** ** C6: the zero value behaves like a constructed correlator *)

(** C6: before any event is tracked, the zero-value correlator and a
    constructed one with empty maps both return absent from [ActivityInfo]
    and [SignalInfo] on every well-formed event, and 0 from
    [AttemptsForActivity] and [AttemptsForSignal] on every info; and any
    replay from the one gives exactly what it gives from the other. *)
Theorem C6_zero_value_like_fresh (h : HistoryEvent) (id : string) (i : ActivityInfo)
    (j : SignalInfo) (hs : list HistoryEvent) :
  getID h = Some id →
  snd <$> EventCorrelator_ActivityInfo zeroCorrelator h = Some None ∧
  snd <$> EventCorrelator_ActivityInfo freshCorrelator h = Some None ∧
  snd <$> EventCorrelator_SignalInfo zeroCorrelator h = Some None ∧
  snd <$> EventCorrelator_SignalInfo freshCorrelator h = Some None ∧
  snd <$> AttemptsForActivity zeroCorrelator (Some i) = Some 0 ∧
  snd <$> AttemptsForActivity freshCorrelator (Some i) = Some 0 ∧
  snd <$> AttemptsForSignal zeroCorrelator (Some j) = Some 0 ∧
  snd <$> AttemptsForSignal freshCorrelator (Some j) = Some 0 ∧
  TrackAll zeroCorrelator (h :: hs) = TrackAll freshCorrelator (h :: hs).
Proof.
  intros Hid.
  unfold EventCorrelator_ActivityInfo, EventCorrelator_SignalInfo. rewrite Hid.
  rewrite !AttemptsForActivity_present, !AttemptsForSignal_present.
  repeat split; reflexivity.
Qed.

(** ** C7: events of other types *)


(** C7 (counterexample): on the zero-value correlator, tracking an event
    of another type does change the indices: its nil maps become allocated
    empty maps ([checkInit]), so the result differs from the input. *)
Lemma C7_counterexample :
  is_recognized (EventType C7_event) = false ∧
  Track zeroCorrelator C7_event = Some freshCorrelator ∧
  freshCorrelator ≠ zeroCorrelator.
Proof. split; [reflexivity|]. split; [reflexivity|]. discriminate. Qed.

Lemma is_recognized_false (t : string) :
  is_recognized t = false →
  String.eqb t EventTypeActivityTaskScheduled = false ∧
  String.eqb t EventTypeActivityTaskCompleted = false ∧
  String.eqb t EventTypeActivityTaskFailed = false ∧
  String.eqb t EventTypeActivityTaskTimedOut = false ∧
  String.eqb t EventTypeActivityTaskCanceled = false ∧
  String.eqb t EventTypeSignalExternalWorkflowExecutionInitiated = false ∧
  String.eqb t EventTypeExternalWorkflowExecutionSignaled = false ∧
  String.eqb t EventTypeSignalExternalWorkflowExecutionFailed = false.
Proof.
  unfold is_recognized, recognized_types. simpl. intros H.
  repeat (apply orb_false_iff in H as [? H]); rewrite ?orb_false_r in *.
  repeat split; assumption.
Qed.

(** C7 (amended): tracking an event of a type outside the eight the
    correlator acts on does not fault and leaves every entry of every index
    unchanged; its only effect is [checkInit], which allocates nil maps as
    empty ones, so on a correlator whose maps are allocated the state is
    identical; tracking it again changes nothing. *)
Theorem C7_unrecognized_noop (a : EventCorrelator) (h : HistoryEvent) :
  is_recognized (EventType h) = false →
  Track a h = Some (checkInit a) ∧
  entries (checkInit a) = entries a ∧
  Track (checkInit a) h = Some (checkInit a) ∧
  (initialized a → Track a h = Some a).
Proof.
  intros Hr.
  destruct (is_recognized_false _ Hr) as (H1 & H2 & H3 & H4 & H5 & H6 & H7 & H8).
  assert (Ha : Track a h = Some (checkInit a)).
  { unfold Track, RemoveCorrelation. rewrite H2, H3, H4, H5, H7, H8.
    exact (Correlate_not_establishing (checkInit a) h H1 H6). }
  split; [exact Ha|]. split; [reflexivity|]. split; [by rewrite Track_checkInit|].
  intros Hi. rewrite Ha. by rewrite checkInit_initialized.
Qed.

(** ** C8: the lookups and the receiver *)

(** C8 (counterexample): [ActivityInfo] called on the zero-value correlator
    changes its receiver: [checkInit] allocates the nil maps. *)
Lemma C8_counterexample :
  fst <$> EventCorrelator_ActivityInfo zeroCorrelator (ev_completed 2 1) = Some freshCorrelator ∧
  fst <$> EventCorrelator_SignalInfo zeroCorrelator (ev_signaled 2 1) = Some freshCorrelator ∧
  freshCorrelator ≠ zeroCorrelator.
Proof. split; [reflexivity|]. split; [reflexivity|]. discriminate. Qed.

(** C8 (amended): on a well-formed event, [ActivityInfo] and [SignalInfo]
    return the entry recorded under the referenced id and leave every entry
    of every index unchanged: the receiver afterwards is [checkInit] of the
    one before, identical to it when its maps are allocated. *)
Theorem C8_lookups_preserve_entries (a : EventCorrelator) (h : HistoryEvent) (id : string) :
  getID h = Some id →
  EventCorrelator_ActivityInfo a h = Some (checkInit a, getm (Activities a) !! id) ∧
  EventCorrelator_SignalInfo a h = Some (checkInit a, getm (Signals a) !! id) ∧
  entries (checkInit a) = entries a ∧
  (initialized a → checkInit a = a).
Proof.
  intros Hid. unfold EventCorrelator_ActivityInfo, EventCorrelator_SignalInfo.
  rewrite Hid. split; [reflexivity|]. split; [reflexivity|].
  split; [reflexivity|apply checkInit_initialized].
Qed.

(** ** C9: replay is deterministic *)

Lemma TrackAll_entries (a b : EventCorrelator) (h : HistoryEvent) (hs : list HistoryEvent) :
  entries a = entries b → TrackAll a (h :: hs) = TrackAll b (h :: hs).
Proof.
  intros He. cbn [TrackAll].
  by rewrite <- (Track_checkInit a), <- (Track_checkInit b), (checkInit_entries a b He).
Qed.

(** C9: replaying the same history from the same starting state (or from
    two states with the same entries) gives the same outcome: both runs
    fault or neither does, the final states have the same entries (and are
    equal once an event has been tracked), and every lookup and attempt
    count on them returns the same result. *)
Theorem C9_replay_deterministic (a b : EventCorrelator) (hs : list HistoryEvent) :
  entries a = entries b →
  (TrackAll a hs = None ↔ TrackAll b hs = None) ∧
  ∀ a' b', TrackAll a hs = Some a' → TrackAll b hs = Some b' →
    entries a' = entries b' ∧ (hs ≠ [] → a' = b') ∧
    ∀ h i j,
      EventCorrelator_ActivityInfo a' h = EventCorrelator_ActivityInfo b' h ∧
      EventCorrelator_SignalInfo a' h = EventCorrelator_SignalInfo b' h ∧
      AttemptsForActivity a' i = AttemptsForActivity b' i ∧
      AttemptsForSignal a' j = AttemptsForSignal b' j.
Proof.
  intros He.
  assert (Hfin : ∀ a' b', TrackAll a hs = Some a' → TrackAll b hs = Some b' →
                 entries a' = entries b' ∧ (hs ≠ [] → a' = b')).
  { intros a' b' Ha Hb. destruct hs as [|h hs].
    - simpl in Ha, Hb. injection Ha as <-. injection Hb as <-. split; [done|congruence].
    - rewrite (TrackAll_entries a b) in Ha by done. rewrite Ha in Hb.
      injection Hb as <-. split; done. }
  split.
  - destruct hs as [|h hs]; [simpl; split; discriminate|].
    by rewrite (TrackAll_entries a b).
  - intros a' b' Ha Hb. destruct (Hfin a' b' Ha Hb) as [He' Hs].
    split; [done|]. split; [done|].
    pose proof (checkInit_entries a' b' He') as Hc.
    intros h i j.
    unfold EventCorrelator_ActivityInfo, EventCorrelator_SignalInfo,
      AttemptsForActivity, AttemptsForSignal.
    rewrite Hc. repeat split; reflexivity.
Qed.

(** ** C10: the attempt counts need a present info *)

(** C10: [AttemptsForActivity] and [AttemptsForSignal] fault on a nil info
    (they dereference it to form the counter key), on every correlator;
    on a present info with no counter recorded they return 0. *)
Theorem C10_attempts_require_info (a : EventCorrelator) (i : ActivityInfo) (j : SignalInfo) :
  getm (ActivityAttempts a) !! ActivityID i = None →
  getm (SignalAttempts a) !! (SignalName j +:+ "->" +:+ WorkflowID j) = None →
  AttemptsForActivity a None = None ∧
  AttemptsForSignal a None = None ∧
  snd <$> AttemptsForActivity a (Some i) = Some 0 ∧
  snd <$> AttemptsForSignal a (Some j) = Some 0.
Proof.
  intros HA HS. split; [reflexivity|]. split; [reflexivity|].
  rewrite AttemptsForActivity_present, AttemptsForSignal_present.
  unfold int_get. rewrite HA, HS. split; reflexivity.
Qed.

(** ** Witnesses: each theorem above applied at a concrete input *)

Lemma C1_resolve_untracked_noop_witness :
  Track freshCorrelator (ev_failed 11 10) = Some (checkInit freshCorrelator) ∧
  entries (checkInit freshCorrelator) = entries freshCorrelator.
Proof.
  apply (C1_resolve_untracked_noop freshCorrelator (ev_failed 11 10) (key 10));
    [apply list_elem_of_In; simpl; tauto|reflexivity..].
Defined.

Lemma C2_attempts_by_activity_id_witness :
  ∃ a1 a2,
    TrackAll freshCorrelator [ev_scheduled 10 "a1" (Some foo1); ev_failed 11 10] = Some a1 ∧
    snd <$> AttemptsForActivity a1 (Some (mkActivityInfo "a1" (Some foo1))) = Some (0 + 1) ∧
    TrackAll a1 [ev_scheduled 20 "a1" (Some foo1); ev_failed 21 20] = Some a2 ∧
    snd <$> AttemptsForActivity a2 (Some (mkActivityInfo "a1" (Some foo1))) = Some (0 + 2).
Proof.
  apply (C2_attempts_by_activity_id freshCorrelator ev_failed "a1" (Some foo1) 10 11 20 21 0);
    [apply list_elem_of_In; simpl; tauto|discriminate|reflexivity|lia].
Defined.

Lemma C3_resolve_clears_attempts_witness :
  ∃ a', TrackAll freshCorrelator [ev_scheduled 30 "a1" (Some foo1); ev_completed 31 30] = Some a' ∧
        snd <$> AttemptsForActivity a' (Some (mkActivityInfo "a1" (Some foo1))) = Some 0.
Proof.
  apply (C3_resolve_clears_attempts freshCorrelator ev_completed "a1" (Some foo1) 30 31).
  apply list_elem_of_In; simpl; tauto.
Defined.

Lemma C5_terminal_removes_pending_witness :
  ∃ a1 a2,
    Track freshCorrelator (ev_scheduled 10 "a1" (Some foo1)) = Some a1 ∧
    snd <$> EventCorrelator_ActivityInfo a1 (ev_completed 11 10) =
      Some (Some (mkActivityInfo "a1" (Some foo1))) ∧
    Track a1 (ev_completed 11 10) = Some a2 ∧
    snd <$> EventCorrelator_ActivityInfo a2 (ev_completed 11 10) = Some None.
Proof.
  apply (C5_terminal_removes_pending freshCorrelator ev_completed "a1" (Some foo1) 10 11).
  apply list_elem_of_In; simpl; tauto.
Defined.

Lemma C6_zero_value_like_fresh_witness :
  snd <$> EventCorrelator_ActivityInfo zeroCorrelator (ev_completed 2 1) = Some None ∧
  snd <$> EventCorrelator_ActivityInfo freshCorrelator (ev_completed 2 1) = Some None ∧
  snd <$> EventCorrelator_SignalInfo zeroCorrelator (ev_completed 2 1) = Some None ∧
  snd <$> EventCorrelator_SignalInfo freshCorrelator (ev_completed 2 1) = Some None ∧
  snd <$> AttemptsForActivity zeroCorrelator (Some (mkActivityInfo "a1" None)) = Some 0 ∧
  snd <$> AttemptsForActivity freshCorrelator (Some (mkActivityInfo "a1" None)) = Some 0 ∧
  snd <$> AttemptsForSignal zeroCorrelator (Some (mkSignalInfo "N" "W")) = Some 0 ∧
  snd <$> AttemptsForSignal freshCorrelator (Some (mkSignalInfo "N" "W")) = Some 0 ∧
  TrackAll zeroCorrelator [ev_completed 2 1] = TrackAll freshCorrelator [ev_completed 2 1].
Proof.
  apply (C6_zero_value_like_fresh (ev_completed 2 1) (key 1) (mkActivityInfo "a1" None)
           (mkSignalInfo "N" "W") []).
  reflexivity.
Defined.

Lemma C7_unrecognized_noop_witness :
  Track zeroCorrelator C7_event = Some (checkInit zeroCorrelator) ∧
  entries (checkInit zeroCorrelator) = entries zeroCorrelator ∧
  Track (checkInit zeroCorrelator) C7_event = Some (checkInit zeroCorrelator) ∧
  (initialized zeroCorrelator → Track zeroCorrelator C7_event = Some zeroCorrelator).
Proof. apply (C7_unrecognized_noop zeroCorrelator C7_event). reflexivity. Defined.

Lemma C8_lookups_preserve_entries_witness :
  EventCorrelator_ActivityInfo zeroCorrelator (ev_completed 2 1) =
    Some (checkInit zeroCorrelator, getm (Activities zeroCorrelator) !! key 1) ∧
  EventCorrelator_SignalInfo zeroCorrelator (ev_completed 2 1) =
    Some (checkInit zeroCorrelator, getm (Signals zeroCorrelator) !! key 1) ∧
  entries (checkInit zeroCorrelator) = entries zeroCorrelator ∧
  (initialized zeroCorrelator → checkInit zeroCorrelator = zeroCorrelator).
Proof.
  apply (C8_lookups_preserve_entries zeroCorrelator (ev_completed 2 1) (key 1)).
  reflexivity.
Defined.


Lemma C9_replay_deterministic_witness :
  (TrackAll zeroCorrelator C9_history = None ↔ TrackAll freshCorrelator C9_history = None) ∧
  ∀ a' b', TrackAll zeroCorrelator C9_history = Some a' →
    TrackAll freshCorrelator C9_history = Some b' →
    entries a' = entries b' ∧ (C9_history ≠ [] → a' = b') ∧
    ∀ h i j,
      EventCorrelator_ActivityInfo a' h = EventCorrelator_ActivityInfo b' h ∧
      EventCorrelator_SignalInfo a' h = EventCorrelator_SignalInfo b' h ∧
      AttemptsForActivity a' i = AttemptsForActivity b' i ∧
      AttemptsForSignal a' j = AttemptsForSignal b' j.
Proof. apply (C9_replay_deterministic zeroCorrelator freshCorrelator C9_history). reflexivity. Defined.

Lemma C10_attempts_require_info_witness :
  AttemptsForActivity freshCorrelator None = None ∧
  AttemptsForSignal freshCorrelator None = None ∧
  snd <$> AttemptsForActivity freshCorrelator (Some (mkActivityInfo "a1" None)) = Some 0 ∧
  snd <$> AttemptsForSignal freshCorrelator (Some (mkSignalInfo "N" "W")) = Some 0.
Proof.
  apply (C10_attempts_require_info freshCorrelator (mkActivityInfo "a1" None)
           (mkSignalInfo "N" "W")); reflexivity.
Defined.

(** * Further properties of the correlator *)

(** ** Event-id keys *)

Lemma pretty_N_go_nonempty (x : N) (s : string) : s ≠ "" → pretty_N_go x s ≠ "".
Proof.
  revert s. induction (N.lt_wf_0 x) as [x _ IH]; intros s Hs.
  destruct (decide (x = 0)%N) as [->|Hx]; [by rewrite pretty_N_go_0|].
  rewrite pretty_N_go_step by lia. apply IH; [apply N.div_lt; lia|]. done.
Qed.

Lemma key_inj (e1 e2 : Z) : key e1 = key e2 → e1 = e2.
Proof. apply pretty_Z_inj. Qed.

Lemma key_nonempty (e : Z) : key e ≠ "".
Proof.
  unfold key, FormatInt, pretty, pretty_Z.
  destruct e as [|p|p]; [discriminate| |discriminate].
  unfold pretty, pretty_positive, pretty, pretty_N.
  case_decide; [done|]. rewrite pretty_N_go_step by lia.
  apply pretty_N_go_nonempty. done.
Qed.

(** X1: [key] renders distinct event ids as distinct, non-empty strings, so
    entries recorded under different event ids never share a map key, and
    no event id is rendered as the [""] that [getID] returns for other
    event types. *)
Theorem X1_key_inj_nonempty (e1 e2 : Z) :
  (key e1 = key e2 → e1 = e2) ∧ key e1 ≠ "".
Proof.
  split; [apply key_inj|apply key_nonempty].
Qed.

(** ** What a single [Track] changes *)

(** X2: tracking an activity-scheduled event [e] records its activity id
    and type under [e], replacing any entry already there, and changes
    nothing else: the activity lookup of a terminal event referencing any
    other id, every attempt count and every signal lookup return what they
    returned before. *)
Theorem X2_scheduled_frame (a : EventCorrelator) (e : Z) (aid : string)
    (ty : option swf_ActivityType) (term : Z → Z → HistoryEvent) (e' e2 : Z) :
  term ∈ [ev_completed; ev_failed; ev_timed_out; ev_canceled] → e2 ≠ e →
  ∃ a', Track a (ev_scheduled e aid ty) = Some a' ∧
    snd <$> EventCorrelator_ActivityInfo a' (term e' e) = Some (Some (mkActivityInfo aid ty)) ∧
    snd <$> EventCorrelator_ActivityInfo a' (term e' e2) =
      snd <$> EventCorrelator_ActivityInfo a (term e' e2) ∧
    getm (ActivityAttempts a') = getm (ActivityAttempts a) ∧
    getm (Signals a') = getm (Signals a) ∧
    getm (SignalAttempts a') = getm (SignalAttempts a).
Proof.
  intros Ht Hne. eexists; split; [apply Track_scheduled|].
  rewrite !(ActivityInfo_terminal _ _ _ _ Ht).
  split; [f_equal; apply lookup_insert_eq|].
  split; [|repeat split].
  f_equal. apply lookup_insert_ne.
  intros Hk. apply Hne. symmetry. by apply key_inj.
Qed.

(** X3: tracking a signal-initiated event [e] records the signal name and
    workflow id under [e], replacing any entry already there, and changes
    nothing else: the signal lookup of a signaled event referencing any
    other id, every activity lookup and every attempt count are as before. *)
Theorem X3_initiated_frame (a : EventCorrelator) (e : Z) (n w : string) (e' e2 : Z) :
  e2 ≠ e →
  ∃ a', Track a (ev_initiated e n w) = Some a' ∧
    snd <$> EventCorrelator_SignalInfo a' (ev_signaled e' e) = Some (Some (mkSignalInfo n w)) ∧
    snd <$> EventCorrelator_SignalInfo a' (ev_signaled e' e2) =
      snd <$> EventCorrelator_SignalInfo a (ev_signaled e' e2) ∧
    getm (Activities a') = getm (Activities a) ∧
    getm (ActivityAttempts a') = getm (ActivityAttempts a) ∧
    getm (SignalAttempts a') = getm (SignalAttempts a).
Proof.
  intros Hne. eexists; split; [apply Track_initiated|].
  rewrite !SignalInfo_signaled.
  split; [f_equal; apply lookup_insert_eq|].
  split; [|repeat split].
  f_equal. apply lookup_insert_ne.
  intros Hk. apply Hne. symmetry. by apply key_inj.
Qed.

Lemma Track_activity_terminal_frame (a : EventCorrelator) (term : Z → Z → HistoryEvent)
    (e' e : Z) :
  term ∈ [ev_completed; ev_failed; ev_timed_out; ev_canceled] →
  ∃ a', Track a (term e' e) = Some a' ∧
    getm (Activities a') = delete (key e) (getm (Activities a)) ∧
    getm (Signals a') = getm (Signals a) ∧
    getm (SignalAttempts a') = getm (SignalAttempts a).
Proof.
  intros Ht. apply list_elem_of_In in Ht; simpl in Ht.
  destruct Ht as [<-|[<-|[<-|[<-|[]]]]];
    unfold Track, RemoveCorrelation, incrementActivityAttempts, safeActivityID; simpl;
    destruct (getm (Activities a) !! key e) as [info|]; simpl;
    try destruct (String.eqb (ActivityID info) ""); simpl;
    eexists; (split; [reflexivity|repeat split]).
Qed.

(** X4: a completed, failed, timed-out or canceled activity event never
    faults, removes the pending entry it references (its activity lookup
    then returns absent) and no other: the activity lookup of a terminal
    event referencing any other id is as before, and the pending signals
    and signal attempt counters are untouched. *)
Theorem X4_activity_terminal_frame (a : EventCorrelator) (term : Z → Z → HistoryEvent)
    (e' e e2 : Z) :
  term ∈ [ev_completed; ev_failed; ev_timed_out; ev_canceled] → e2 ≠ e →
  ∃ a', Track a (term e' e) = Some a' ∧
    snd <$> EventCorrelator_ActivityInfo a' (term e' e) = Some None ∧
    snd <$> EventCorrelator_ActivityInfo a' (term e' e2) =
      snd <$> EventCorrelator_ActivityInfo a (term e' e2) ∧
    getm (Signals a') = getm (Signals a) ∧
    getm (SignalAttempts a') = getm (SignalAttempts a).
Proof.
  intros Ht Hne.
  destruct (Track_activity_terminal_frame a term e' e Ht) as (a' & Htr & HA & HS & HSA).
  exists a'. split; [done|].
  rewrite !(ActivityInfo_terminal _ _ _ _ Ht), HA.
  split; [by rewrite lookup_delete_eq|]. split; [|done].
  f_equal. apply lookup_delete_ne.
  intros Hk. apply Hne. symmetry. by apply key_inj.
Qed.

(** X5: a failure or time-out of a pending activity whose activity id is
    the empty string is not counted: [incrementActivityAttempts] skips the
    empty id, so the activity attempt counters are left as they were (the
    pending entry is still removed). *)
Theorem X5_empty_activity_id_not_counted (a : EventCorrelator)
    (term : Z → Z → HistoryEvent) (e' e : Z) (info : ActivityInfo) :
  term ∈ [ev_failed; ev_timed_out] →
  getm (Activities a) !! key e = Some info → ActivityID info = "" →
  ∃ a', Track a (term e' e) = Some a' ∧
    getm (ActivityAttempts a') = getm (ActivityAttempts a) ∧
    getm (Activities a') = delete (key e) (getm (Activities a)).
Proof.
  intros Ht HA Hid. apply list_elem_of_In in Ht; simpl in Ht.
  destruct Ht as [<-|[<-|[]]];
    unfold Track, RemoveCorrelation, incrementActivityAttempts, safeActivityID; simpl;
    rewrite HA; simpl; rewrite Hid; simpl;
    eexists; (split; [reflexivity|split; reflexivity]).
Qed.

(** ** Signal attempt counters and the derived signal id *)

(** X6: signal attempt counters are shared by all signal infos whose name
    and workflow id join with ["->"] to the same string, even distinct
    ones such as [{"a->b", "c"}] and [{"a", "b->c"}]: initiating one and
    tracking its delivery failure adds one to the count
    [AttemptsForSignal] returns for the other. *)
Theorem X6_signal_counter_shared (a : EventCorrelator) (n1 w1 n2 w2 : string) (e e' : Z) :
  n1 +:+ "->" +:+ w1 = n2 +:+ "->" +:+ w2 →
  ∃ a', TrackAll a [ev_initiated e n1 w1; ev_signal_failed e' e] = Some a' ∧
    snd <$> AttemptsForSignal a' (Some (mkSignalInfo n2 w2)) =
      int_incr <$> (snd <$> AttemptsForSignal a (Some (mkSignalInfo n2 w2))).
Proof.
  intros Hid. cbn [TrackAll]. rewrite Track_initiated. cbn [mbind option_bind].
  rewrite (Track_signal_failed _ e' e (mkSignalInfo n1 w1)) by apply lookup_insert_eq.
  cbn [mbind option_bind]. eexists; split; [reflexivity|].
  rewrite !AttemptsForSignal_present. cbn [SignalName WorkflowID]. rewrite <- Hid.
  simpl. f_equal. apply int_get_insert.
Qed.

(** ** When [Track] faults *)

(** Evaluate the comparisons of an event-type constant [C] with the
    other constants. *)
Ltac eval_type_eqb C :=
  repeat match goal with
  | |- context [String.eqb C ?D] =>
      let b := eval vm_compute in (String.eqb C D) in change (String.eqb C D) with b
  | H : context [String.eqb C ?D] |- _ =>
      let b := eval vm_compute in (String.eqb C D) in change (String.eqb C D) with b in H
  end.

(** Case analysis on an event type [t]: each comparison of [t] with a
    constant is decided once; where it holds, [t] is replaced by the
    constant, which decides all the others. *)
Ltac decide_types t H :=
  let go C :=
    let E := fresh "E" in
    destruct (String.eqb t C) eqn:E;
    [apply String.eqb_eq in E; rewrite E in *; eval_type_eqb C|] in
  repeat match goal with
  | |- context [String.eqb t ?C] => go C
  | _ => match type of H with context [String.eqb t ?C] => go C end
  end.

(** Destruct the attribute pointers the [present] checks mention. *)
Ltac use_present :=
  repeat match goal with
  | H : present ?o = true |- _ =>
      let r := fresh "r" in destruct o as [r|]; cbn [present] in H; [clear H|discriminate]
  end.

(** X7: on an event whose scalar pointers ([EventType], [EventID] and the
    id, name and workflow fields of its attributes, which [HistoryEvent]
    records as values) are all non-nil and whose attribute pointer for its
    type is present, [Track] faults exactly when the event is an
    external-execution-signaled event whose initiated event has no pending
    signal entry (the nil info handed to [signalIDFromInfo]); on every
    other such event, of any type, it succeeds.  Events with a nil scalar
    pointer are outside this statement. *)
Theorem X7_track_fault_iff (a : EventCorrelator) (h : HistoryEvent) :
  attrs_present h = true →
  Track a h = None ↔
  (EventType h = EventTypeExternalWorkflowExecutionSignaled ∧
   ∃ r, ExternalWorkflowExecutionSignaledEventAttributes h = Some r ∧
        getm (Signals a) !! key (InitiatedEventID r) = None).
Proof.
  unfold attrs_present, Track, RemoveCorrelation, Correlate, incrementActivityAttempts,
    incrementSignalAttempts, safeActivityID, safeSignalID, getID.
  remember (EventType h) as t eqn:Et. intros Hp.
  decide_types t Hp; cbv iota in Hp |- *; use_present; cbn [mbind option_bind].
  all: try match goal with
       | |- context [getm (Activities ?x) !! ?k] => destruct (getm (Activities x) !! k); simpl
       | |- context [getm (Signals ?x) !! ?k] => destruct (getm (Signals x) !! k) eqn:?; simpl
       end.
  all: try match goal with
       | |- context [if String.eqb ?x "" then _ else _] => destruct (String.eqb x ""); simpl
       end.
  all: first
    [ split; [discriminate|];
      intros [Heq _];
      first [ discriminate Heq
            | rewrite Heq in *; eval_type_eqb EventTypeExternalWorkflowExecutionSignaled;
              congruence ]
    | split; [intros _; split; [reflexivity|eexists; split; [reflexivity|assumption]]
             |reflexivity]
    | split; [discriminate|]; intros (_ & r0 & Hr & Hl); injection Hr as <-;
      match goal with
      | H : _ !! _ = Some _ |- _ => pose proof (eq_trans (eq_sym H) Hl) as Hc; discriminate Hc
      end ].
Qed.

(** ** Invariants of a replay *)

Ltac split_track H :=
  unfold Track, RemoveCorrelation, Correlate, incrementActivityAttempts,
    incrementSignalAttempts, safeActivityID, safeSignalID, getID, signalIDFromInfo in H;
  let t := fresh "t" in
  let Et := fresh "Et" in
  remember (EventType _) as t eqn:Et in H;
  decide_types t H; unfold mbind, option_bind in H;
  repeat (case_match; simpl in H); simplify_eq.

Ltac peel_lookup Hk :=
  repeat match type of Hk with
  | <[_:=_]> _ !! _ = Some _ =>
      apply lookup_insert_Some in Hk; destruct Hk as [[<- <-]|[? Hk]]
  | delete _ _ !! _ = Some _ => apply lookup_delete_Some in Hk; destruct Hk as [? Hk]
  | id _ !! _ = Some _ => unfold id in Hk
  end.

Lemma Track_ActivityAttempts_step (a a' : EventCorrelator) (h : HistoryEvent)
    (k : string) (v : Z) :
  Track a h = Some a' → getm (ActivityAttempts a') !! k = Some v →
  getm (ActivityAttempts a) !! k = Some v ∨
  (is_activity_failure h = true ∧ k ≠ "" ∧ v = int_incr (int_get (ActivityAttempts a) k)).
Proof.
  intros H Hk. split_track H.
  all: cbn [ActivityAttempts set_Activities set_ActivityAttempts set_Signals
              set_SignalAttempts checkInit] in Hk; unfold getm in Hk; cbn [default] in Hk.
  all: peel_lookup Hk.
  all: first [left; exact Hk
             | right; split; [unfold is_activity_failure; rewrite <- Et; reflexivity|];
               split; [apply String.eqb_neq; assumption | reflexivity]].
Qed.

Lemma Track_SignalAttempts_step (a a' : EventCorrelator) (h : HistoryEvent)
    (k : string) (v : Z) :
  Track a h = Some a' → getm (SignalAttempts a') !! k = Some v →
  getm (SignalAttempts a) !! k = Some v ∨
  (is_signal_failure h = true ∧ k ≠ "" ∧ v = int_incr (int_get (SignalAttempts a) k)).
Proof.
  intros H Hk. split_track H.
  all: cbn [SignalAttempts set_Activities set_ActivityAttempts set_Signals
              set_SignalAttempts checkInit] in Hk; unfold getm in Hk; cbn [default] in Hk.
  all: peel_lookup Hk.
  all: first [left; exact Hk
             | right; split; [unfold is_signal_failure; rewrite <- Et; reflexivity|];
               split; [apply String.eqb_neq; assumption | reflexivity]].
Qed.

Lemma Track_Activities_step (a a' : EventCorrelator) (h : HistoryEvent)
    (k : string) (info : ActivityInfo) :
  Track a h = Some a' → getm (Activities a') !! k = Some info →
  getm (Activities a) !! k = Some info ∨
  (EventType h = EventTypeActivityTaskScheduled ∧ k = key (EventID h) ∧
   ∃ attrs, ActivityTaskScheduledEventAttributes_ h = Some attrs ∧
            info = mkActivityInfo (ats_ActivityID attrs) (ats_ActivityType attrs)).
Proof.
  intros H Hk. split_track H.
  all: cbn [Activities set_Activities set_ActivityAttempts set_Signals
              set_SignalAttempts checkInit] in Hk; unfold getm in Hk; cbn [default] in Hk.
  all: peel_lookup Hk.
  all: first [left; exact Hk
             | right; split; [congruence|]; split; [reflexivity|];
               eexists; split; [first [eassumption|reflexivity]|reflexivity]].
Qed.

Lemma Track_Signals_step (a a' : EventCorrelator) (h : HistoryEvent)
    (k : string) (info : SignalInfo) :
  Track a h = Some a' → getm (Signals a') !! k = Some info →
  getm (Signals a) !! k = Some info ∨
  (EventType h = EventTypeSignalExternalWorkflowExecutionInitiated ∧ k = key (EventID h) ∧
   ∃ attrs, SignalExternalWorkflowExecutionInitiatedEventAttributes_ h = Some attrs ∧
            info = mkSignalInfo (sewei_SignalName attrs) (sewei_WorkflowID attrs)).
Proof.
  intros H Hk. split_track H.
  all: cbn [Signals set_Activities set_ActivityAttempts set_Signals
              set_SignalAttempts checkInit] in Hk; unfold getm in Hk; cbn [default] in Hk.
  all: peel_lookup Hk.
  all: first [left; exact Hk
             | right; split; [congruence|]; split; [reflexivity|];
               eexists; split; [first [eassumption|reflexivity]|reflexivity]].
Qed.

Lemma attempts_bounded_empty (m : option (gmap string Z)) (n : Z) :
  getm m = ∅ → attempts_bounded m n.
Proof. intros E k v Hk. rewrite E, lookup_empty in Hk. discriminate. Qed.

Lemma attempts_step_bounded (m m' : option (gmap string Z)) (n : Z) (b : bool) :
  0 ≤ n → n + Z.of_nat (if b then 1 else 0) < 2 ^ 63 → attempts_bounded m n →
  (∀ k v, getm m' !! k = Some v →
     getm m !! k = Some v ∨ (b = true ∧ k ≠ "" ∧ v = int_incr (int_get m k))) →
  attempts_bounded m' (n + Z.of_nat (if b then 1 else 0)).
Proof.
  intros Hn Hlt Hb Hstep k v Hk.
  destruct (Hstep k v Hk) as [Hk0|(-> & Hne & ->)].
  - apply Hb in Hk0 as [Hne Hv]. split; [exact Hne|]. destruct b; simpl; lia.
  - simpl in Hlt. split; [exact Hne|]. unfold int_get.
    destruct (getm m !! k) as [w|] eqn:Hw; simpl.
    + apply Hb in Hw as [_ Hw]. rewrite int_incr_small; lia.
    + rewrite int_incr_small; lia.
Qed.

Lemma TrackAll_ActivityAttempts_bounded (a a' : EventCorrelator)
    (hs : list HistoryEvent) (n : Z) :
  0 ≤ n → attempts_bounded (ActivityAttempts a) n → TrackAll a hs = Some a' →
  n + Z.of_nat (count_events is_activity_failure hs) < 2 ^ 63 →
  attempts_bounded (ActivityAttempts a') (n + Z.of_nat (count_events is_activity_failure hs)).
Proof.
  revert a n. induction hs as [|h hs IH]; intros a n Hn Hb H Hlt.
  - cbn in H. injection H as <-. cbn. by rewrite Z.add_0_r.
  - cbn [TrackAll] in H. destruct (Track a h) as [a1|] eqn:Ht; [|discriminate].
    cbn [mbind option_bind] in H.
    cbn [count_events] in Hlt |- *. rewrite Nat2Z.inj_add in Hlt |- *.
    assert (Hb1 : attempts_bounded (ActivityAttempts a1)
                    (n + Z.of_nat (if is_activity_failure h then 1 else 0))).
    { apply (attempts_step_bounded (ActivityAttempts a)); [lia|destruct (is_activity_failure h); simpl in *; lia|exact Hb|].
      intros k v Hk. exact (Track_ActivityAttempts_step a a1 h k v Ht Hk). }
    rewrite Z.add_assoc. apply (IH a1); [destruct (is_activity_failure h); simpl; lia|exact Hb1|exact H|lia].
Qed.

Lemma TrackAll_SignalAttempts_bounded (a a' : EventCorrelator)
    (hs : list HistoryEvent) (n : Z) :
  0 ≤ n → attempts_bounded (SignalAttempts a) n → TrackAll a hs = Some a' →
  n + Z.of_nat (count_events is_signal_failure hs) < 2 ^ 63 →
  attempts_bounded (SignalAttempts a') (n + Z.of_nat (count_events is_signal_failure hs)).
Proof.
  revert a n. induction hs as [|h hs IH]; intros a n Hn Hb H Hlt.
  - cbn in H. injection H as <-. cbn. by rewrite Z.add_0_r.
  - cbn [TrackAll] in H. destruct (Track a h) as [a1|] eqn:Ht; [|discriminate].
    cbn [mbind option_bind] in H.
    cbn [count_events] in Hlt |- *. rewrite Nat2Z.inj_add in Hlt |- *.
    assert (Hb1 : attempts_bounded (SignalAttempts a1)
                    (n + Z.of_nat (if is_signal_failure h then 1 else 0))).
    { apply (attempts_step_bounded (SignalAttempts a)); [lia|destruct (is_signal_failure h); simpl in *; lia|exact Hb|].
      intros k v Hk. exact (Track_SignalAttempts_step a a1 h k v Ht Hk). }
    rewrite Z.add_assoc. apply (IH a1); [destruct (is_signal_failure h); simpl; lia|exact Hb1|exact H|lia].
Qed.

Lemma TrackAll_Activities_origin (a a' : EventCorrelator) (hs : list HistoryEvent)
    (k : string) (info : ActivityInfo) :
  TrackAll a hs = Some a' → getm (Activities a') !! k = Some info →
  getm (Activities a) !! k = Some info ∨
  ∃ h, h ∈ hs ∧ EventType h = EventTypeActivityTaskScheduled ∧ k = key (EventID h) ∧
       ∃ attrs, ActivityTaskScheduledEventAttributes_ h = Some attrs ∧
                info = mkActivityInfo (ats_ActivityID attrs) (ats_ActivityType attrs).
Proof.
  revert a. induction hs as [|h hs IH]; intros a H Hk.
  - cbn in H. injection H as <-. by left.
  - cbn [TrackAll] in H. destruct (Track a h) as [a1|] eqn:Ht; [|discriminate].
    cbn [mbind option_bind] in H.
    destruct (IH a1 H Hk) as [Hk1|(h' & Hin & Hrest)].
    + destruct (Track_Activities_step a a1 h k info Ht Hk1) as [Hk0|Hh].
      * by left.
      * right. exists h. split; [left|exact Hh].
    + right. exists h'. split; [right; exact Hin|exact Hrest].
Qed.

Lemma TrackAll_Signals_origin (a a' : EventCorrelator) (hs : list HistoryEvent)
    (k : string) (info : SignalInfo) :
  TrackAll a hs = Some a' → getm (Signals a') !! k = Some info →
  getm (Signals a) !! k = Some info ∨
  ∃ h, h ∈ hs ∧ EventType h = EventTypeSignalExternalWorkflowExecutionInitiated ∧
       k = key (EventID h) ∧
       ∃ attrs, SignalExternalWorkflowExecutionInitiatedEventAttributes_ h = Some attrs ∧
                info = mkSignalInfo (sewei_SignalName attrs) (sewei_WorkflowID attrs).
Proof.
  revert a. induction hs as [|h hs IH]; intros a H Hk.
  - cbn in H. injection H as <-. by left.
  - cbn [TrackAll] in H. destruct (Track a h) as [a1|] eqn:Ht; [|discriminate].
    cbn [mbind option_bind] in H.
    destruct (IH a1 H Hk) as [Hk1|(h' & Hin & Hrest)].
    + destruct (Track_Signals_step a a1 h k info Ht Hk1) as [Hk0|Hh].
      * by left.
      * right. exists h. split; [left|exact Hh].
    + right. exists h'. split; [right; exact Hin|exact Hrest].
Qed.

(** X8: after a replay from a correlator without activity attempt
    counters, every counter is stored under a non-empty activity id and
    lies between 1 and the number of failed or timed-out activity events
    of the history (the bound keeps the Go [int] from wrapping). *)
Theorem X8_activity_attempts_bounded (a a' : EventCorrelator) (hs : list HistoryEvent)
    (k : string) (v : Z) :
  getm (ActivityAttempts a) = ∅ → TrackAll a hs = Some a' →
  Z.of_nat (count_events is_activity_failure hs) < 2 ^ 63 →
  getm (ActivityAttempts a') !! k = Some v →
  k ≠ "" ∧ 1 ≤ v ≤ Z.of_nat (count_events is_activity_failure hs).
Proof.
  intros H0 H Hlt Hk.
  pose proof (TrackAll_ActivityAttempts_bounded a a' hs 0 (Z.le_refl 0)
                (attempts_bounded_empty _ _ H0) H) as Hb.
  rewrite Z.add_0_l in Hb. exact (Hb Hlt k v Hk).
Qed.

(** X9: after a replay from a correlator without signal attempt counters,
    every counter is stored under a non-empty signal id and lies between 1
    and the number of signal-failed events of the history. *)
Theorem X9_signal_attempts_bounded (a a' : EventCorrelator) (hs : list HistoryEvent)
    (k : string) (v : Z) :
  getm (SignalAttempts a) = ∅ → TrackAll a hs = Some a' →
  Z.of_nat (count_events is_signal_failure hs) < 2 ^ 63 →
  getm (SignalAttempts a') !! k = Some v →
  k ≠ "" ∧ 1 ≤ v ≤ Z.of_nat (count_events is_signal_failure hs).
Proof.
  intros H0 H Hlt Hk.
  pose proof (TrackAll_SignalAttempts_bounded a a' hs 0 (Z.le_refl 0)
                (attempts_bounded_empty _ _ H0) H) as Hb.
  rewrite Z.add_0_l in Hb. exact (Hb Hlt k v Hk).
Qed.

(** X10: after a replay from a correlator without pending activities,
    every pending activity was recorded by an activity-scheduled event of
    the history: it sits under that event's id and holds the activity id
    and type of its attributes. *)
Theorem X10_pending_activity_origin (a a' : EventCorrelator) (hs : list HistoryEvent)
    (k : string) (info : ActivityInfo) :
  getm (Activities a) = ∅ → TrackAll a hs = Some a' →
  getm (Activities a') !! k = Some info →
  ∃ h, h ∈ hs ∧ EventType h = EventTypeActivityTaskScheduled ∧ k = key (EventID h) ∧
       ∃ attrs, ActivityTaskScheduledEventAttributes_ h = Some attrs ∧
                info = mkActivityInfo (ats_ActivityID attrs) (ats_ActivityType attrs).
Proof.
  intros H0 H Hk.
  destruct (TrackAll_Activities_origin a a' hs k info H Hk) as [Hk0|Hh]; [|exact Hh].
  rewrite H0, lookup_empty in Hk0. discriminate.
Qed.

(** X11: after a replay from a correlator without pending signals, every
    pending signal was recorded by a signal-initiated event of the
    history: it sits under that event's id and holds the signal name and
    workflow id of its attributes. *)
Theorem X11_pending_signal_origin (a a' : EventCorrelator) (hs : list HistoryEvent)
    (k : string) (info : SignalInfo) :
  getm (Signals a) = ∅ → TrackAll a hs = Some a' →
  getm (Signals a') !! k = Some info →
  ∃ h, h ∈ hs ∧ EventType h = EventTypeSignalExternalWorkflowExecutionInitiated ∧
       k = key (EventID h) ∧
       ∃ attrs, SignalExternalWorkflowExecutionInitiatedEventAttributes_ h = Some attrs ∧
                info = mkSignalInfo (sewei_SignalName attrs) (sewei_WorkflowID attrs).
Proof.
  intros H0 H Hk.
  destruct (TrackAll_Signals_origin a a' hs k info H Hk) as [Hk0|Hh]; [|exact Hh].
  rewrite H0, lookup_empty in Hk0. discriminate.
Qed.

(** X12: on an event for which [getID] returns [""] (any type other than
    the four activity-terminal and two signal-terminal ones, such as an
    activity-scheduled event), [ActivityInfo] and [SignalInfo] return nil
    on every state a replay from a correlator without pending entries
    reaches: no entry is ever stored under [""]. *)
Theorem X12_lookups_of_untyped_events (a a' : EventCorrelator) (hs : list HistoryEvent)
    (h : HistoryEvent) :
  getm (Activities a) = ∅ → getm (Signals a) = ∅ → TrackAll a hs = Some a' →
  getID h = Some "" →
  snd <$> EventCorrelator_ActivityInfo a' h = Some None ∧
  snd <$> EventCorrelator_SignalInfo a' h = Some None.
Proof.
  intros HA HS H Hid.
  unfold EventCorrelator_ActivityInfo, EventCorrelator_SignalInfo. rewrite Hid.
  cbn [mbind option_bind checkInit Activities Signals fmap option_fmap option_map snd].
  split; f_equal.
  - destruct (getm (Activities a') !! "") as [info|] eqn:Hk; [|exact Hk].
    destruct (TrackAll_Activities_origin a a' hs "" info H Hk)
      as [Hk0|(h' & _ & _ & Hkey & _)].
    + rewrite HA, lookup_empty in Hk0. discriminate.
    + exfalso. exact (key_nonempty (EventID h') (eq_sym Hkey)).
  - destruct (getm (Signals a') !! "") as [info|] eqn:Hk; [|exact Hk].
    destruct (TrackAll_Signals_origin a a' hs "" info H Hk)
      as [Hk0|(h' & _ & _ & Hkey & _)].
    + rewrite HS, lookup_empty in Hk0. discriminate.
    + exfalso. exact (key_nonempty (EventID h') (eq_sym Hkey)).
Qed.

(** ** Instances of the further properties *)

Lemma X2_scheduled_frame_witness :
  ∃ a', Track freshCorrelator (ev_scheduled 1 "build" (Some foo1)) = Some a' ∧
    snd <$> EventCorrelator_ActivityInfo a' (ev_failed 2 1) =
      Some (Some (mkActivityInfo "build" (Some foo1))) ∧
    snd <$> EventCorrelator_ActivityInfo a' (ev_failed 2 3) =
      snd <$> EventCorrelator_ActivityInfo freshCorrelator (ev_failed 2 3) ∧
    getm (ActivityAttempts a') = getm (ActivityAttempts freshCorrelator) ∧
    getm (Signals a') = getm (Signals freshCorrelator) ∧
    getm (SignalAttempts a') = getm (SignalAttempts freshCorrelator).
Proof.
  apply (X2_scheduled_frame freshCorrelator 1 "build" (Some foo1) ev_failed 2 3);
    [apply list_elem_of_In; simpl; auto|lia].
Defined.

Lemma X3_initiated_frame_witness :
  ∃ a', Track replayed (ev_initiated 9 "stop" "wf") = Some a' ∧
    snd <$> EventCorrelator_SignalInfo a' (ev_signaled 10 9) =
      Some (Some (mkSignalInfo "stop" "wf")) ∧
    snd <$> EventCorrelator_SignalInfo a' (ev_signaled 10 8) =
      snd <$> EventCorrelator_SignalInfo replayed (ev_signaled 10 8) ∧
    getm (Activities a') = getm (Activities replayed) ∧
    getm (ActivityAttempts a') = getm (ActivityAttempts replayed) ∧
    getm (SignalAttempts a') = getm (SignalAttempts replayed).
Proof. apply (X3_initiated_frame replayed 9 "stop" "wf" 10 8). lia. Defined.

Lemma X4_activity_terminal_frame_witness :
  ∃ a', Track replayed (ev_completed 9 5) = Some a' ∧
    snd <$> EventCorrelator_ActivityInfo a' (ev_completed 9 5) = Some None ∧
    snd <$> EventCorrelator_ActivityInfo a' (ev_completed 9 1) =
      snd <$> EventCorrelator_ActivityInfo replayed (ev_completed 9 1) ∧
    getm (Signals a') = getm (Signals replayed) ∧
    getm (SignalAttempts a') = getm (SignalAttempts replayed).
Proof.
  apply (X4_activity_terminal_frame replayed ev_completed 9 5 1);
    [apply list_elem_of_In; simpl; auto|lia].
Defined.

Lemma X5_empty_activity_id_not_counted_witness :
  let a := default zeroCorrelator (Track freshCorrelator (ev_scheduled 1 "" None)) in
  ∃ a', Track a (ev_timed_out 2 1) = Some a' ∧
    getm (ActivityAttempts a') = getm (ActivityAttempts a) ∧
    getm (Activities a') = delete (key 1) (getm (Activities a)).
Proof.
  intros a.
  apply (X5_empty_activity_id_not_counted a ev_timed_out 2 1 (mkActivityInfo "" None));
    [apply list_elem_of_In; simpl; auto|vm_compute; reflexivity|reflexivity].
Defined.

Lemma X6_signal_counter_shared_witness :
  ∃ a', TrackAll freshCorrelator [ev_initiated 1 "a->b" "c"; ev_signal_failed 2 1] = Some a' ∧
    snd <$> AttemptsForSignal a' (Some (mkSignalInfo "a" "b->c")) =
      int_incr <$> (snd <$> AttemptsForSignal freshCorrelator (Some (mkSignalInfo "a" "b->c"))).
Proof. apply (X6_signal_counter_shared freshCorrelator "a->b" "c" "a" "b->c" 1 2). reflexivity. Defined.

Lemma X7_track_fault_iff_witness :
  Track freshCorrelator (ev_signaled 2 1) = None ↔
  (EventType (ev_signaled 2 1) = EventTypeExternalWorkflowExecutionSignaled ∧
   ∃ r, ExternalWorkflowExecutionSignaledEventAttributes (ev_signaled 2 1) = Some r ∧
        getm (Signals freshCorrelator) !! key (InitiatedEventID r) = None).
Proof. apply (X7_track_fault_iff freshCorrelator (ev_signaled 2 1)). reflexivity. Defined.

Lemma X8_activity_attempts_bounded_witness :
  "build" ≠ "" ∧ 1 ≤ 2 ≤ Z.of_nat (count_events is_activity_failure replay_history).
Proof.
  apply (X8_activity_attempts_bounded freshCorrelator replayed replay_history "build" 2);
    vm_compute; reflexivity.
Defined.

Lemma X9_signal_attempts_bounded_witness :
  "go->wf" ≠ "" ∧ 1 ≤ 1 ≤ Z.of_nat (count_events is_signal_failure replay_history).
Proof.
  apply (X9_signal_attempts_bounded freshCorrelator replayed replay_history "go->wf" 1);
    vm_compute; reflexivity.
Defined.

Lemma X10_pending_activity_origin_witness :
  ∃ h, h ∈ replay_history ∧ EventType h = EventTypeActivityTaskScheduled ∧
       key 5 = key (EventID h) ∧
       ∃ attrs, ActivityTaskScheduledEventAttributes_ h = Some attrs ∧
                mkActivityInfo "build" (Some foo1) =
                  mkActivityInfo (ats_ActivityID attrs) (ats_ActivityType attrs).
Proof.
  apply (X10_pending_activity_origin freshCorrelator replayed replay_history (key 5)
           (mkActivityInfo "build" (Some foo1))); vm_compute; reflexivity.
Defined.

Lemma X11_pending_signal_origin_witness :
  ∃ h, h ∈ replay_history ∧ EventType h = EventTypeSignalExternalWorkflowExecutionInitiated ∧
       key 8 = key (EventID h) ∧
       ∃ attrs, SignalExternalWorkflowExecutionInitiatedEventAttributes_ h = Some attrs ∧
                mkSignalInfo "go" "wf" =
                  mkSignalInfo (sewei_SignalName attrs) (sewei_WorkflowID attrs).
Proof.
  apply (X11_pending_signal_origin freshCorrelator replayed replay_history (key 8)
           (mkSignalInfo "go" "wf")); vm_compute; reflexivity.
Defined.

Lemma X12_lookups_of_untyped_events_witness :
  snd <$> EventCorrelator_ActivityInfo replayed (ev_scheduled 5 "build" (Some foo1)) = Some None ∧
  snd <$> EventCorrelator_SignalInfo replayed (ev_scheduled 5 "build" (Some foo1)) = Some None.
Proof.
  apply (X12_lookups_of_untyped_events freshCorrelator replayed replay_history
           (ev_scheduled 5 "build" (Some foo1))); vm_compute; reflexivity.
Defined.
